(** * 2D geometry transformations: rotation, displacement, n-gon symmetry

    A shallow embedding of [geometry.py] and [transformations.py].  The
    functions are thin wrappers over a handful of numpy operations, so the
    development starts with a small model of numpy's [ndarray] (a shape and
    a row-major buffer) and of the operations the two files call: [np.shape],
    [.T], [ndarray.dot], broadcasting [+] and [*], [np.cos], [np.sin],
    [np.arange], [np.deg2rad] and [np.array].  Floating-point numbers are
    idealised as real numbers; Python integers are [Z]; a raised exception
    is the [Raise] branch of a result type. *)

From Stdlib Require Import String.
From Stdlib Require Import List Arith PeanoNat ZArith Lia Bool.
From Stdlib Require Import Reals Lra.
Import ListNotations.

(** ** Python exceptions and the result of a call *)

Module Py.

(** The pieces of an f-string: literal text and formatted values. *)
Inductive fragment : Type :=
| Lit (s : string)
| FmtShape (sh : list nat)
| FmtInt (z : Z).

(** The text an exception carries: an f-string of the source files, or one
    of numpy's own shape complaints. *)
Inductive message : Type :=
| FString (parts : list fragment)
| NpBroadcast (s1 s2 : list nat)
| NpNotAligned (s1 s2 : list nat)
| NpInhomogeneous.

Inductive exn : Type :=
| ValueError (m : message)
| IndexError
| ZeroDivisionError.

Inductive result (A : Type) : Type :=
| Ok (a : A)
| Raise (e : exn).

Arguments Ok {A} a.
Arguments Raise {A} e.

Definition bind {A B : Type} (r : result A) (k : A -> result B) : result B :=
  match r with
  | Ok a => k a
  | Raise e => Raise e
  end.

Definition is_ok {A : Type} (r : result A) : bool :=
  match r with Ok _ => true | Raise _ => false end.

Definition raises_ValueError {A : Type} (r : result A) : bool :=
  match r with Raise (ValueError _) => true | _ => false end.

End Py.

Import Py.

Notation "x <- c1 ;; c2" := (bind c1 (fun x => c2))
  (at level 61, c1 at next level, right associativity).

(** ** A model of numpy arrays *)

Module Np.

Open Scope R_scope.

Record ndarray : Type := mk_ndarray { shape : list nat; data : list R }.

(** Number of elements of an array of the given shape. *)
Definition size (sh : list nat) : nat := fold_right Nat.mul 1%nat sh.

(** The buffer holds exactly one number per position. *)
Definition wf (a : ndarray) : Prop := length (data a) = size (shape a).

(** [np.ravel_multi_index]: position of a multi-index in the row-major
    buffer. *)
Fixpoint ravel (sh idx : list nat) : nat :=
  match sh, idx with
  | _ :: t, i :: it => (i * size t + ravel t it)%nat
  | _, _ => 0%nat
  end.

(** [np.unravel_index]: the multi-index of a buffer position. *)
Fixpoint unravel (sh : list nat) (k : nat) : list nat :=
  match sh with
  | [] => []
  | _ :: t => (k / size t)%nat :: unravel t (k mod size t)
  end.

(** A multi-index that addresses an element of an array of shape [sh]. *)
Fixpoint in_range (sh idx : list nat) : Prop :=
  match sh, idx with
  | [], [] => True
  | n :: t, i :: it => (i < n)%nat /\ in_range t it
  | _, _ => False
  end.

(** [a[idx]] for a full multi-index. *)
Definition get (a : ndarray) (idx : list nat) : R :=
  nth (ravel (shape a) idx) (data a) 0.

(** The array of shape [sh] whose element at [idx] is [f idx]. *)
Definition tabulate (sh : list nat) (f : list nat -> R) : ndarray :=
  mk_ndarray sh (map (fun k => f (unravel sh k)) (seq 0 (size sh))).

(** A Python float used where numpy expects an array: a 0-d array. *)
Definition scalar (x : R) : ndarray := mk_ndarray [] [x].

(** [np.array([x0, x1, ...])] on numbers. *)
Definition array1 (l : list R) : ndarray := mk_ndarray [length l] l.

Definition shape_eqb (s1 s2 : list nat) : bool :=
  if list_eq_dec Nat.eq_dec s1 s2 then true else false.

(** [np.array([a0, a1, ...])] on arrays: stacks equally shaped arrays along
    a new leading axis. *)
Definition array (l : list ndarray) : result ndarray :=
  match l with
  | [] => Ok (mk_ndarray [0%nat] [])
  | a :: t =>
      if forallb (fun b => shape_eqb (shape b) (shape a)) t
      then Ok (mk_ndarray (length l :: shape a) (flat_map data l))
      else Raise (ValueError NpInhomogeneous)
  end.

(** [np.shape(a)[-1]]: the last entry of the shape tuple; indexing the
    empty tuple of a 0-d array raises [IndexError]. *)
Definition shape_last (a : ndarray) : result nat :=
  match rev (shape a) with
  | [] => Raise IndexError
  | n :: _ => Ok n
  end.

(** [a.T]: all axes reversed. *)
Definition T (a : ndarray) : ndarray :=
  tabulate (rev (shape a)) (fun idx => get a (rev idx)).

(** Elementwise application, as [np.cos] and [np.sin] do. *)
Definition ufunc (f : R -> R) (a : ndarray) : ndarray :=
  mk_ndarray (shape a) (map f (data a)).

Definition np_cos : ndarray -> ndarray := ufunc cos.
Definition np_sin : ndarray -> ndarray := ufunc sin.

(** [np.arange(n)] for a Python integer [n]: 0, 1, ..., n-1, empty when
    [n <= 0]. *)
Definition arange (n : Z) : ndarray :=
  mk_ndarray [Z.to_nat n] (map INR (seq 0 (Z.to_nat n))).

(** [np.deg2rad]. *)
Definition deg2rad (x : R) : R := x * (PI / 180).

(** Sum of [f 0 + ... + f (n-1)]. *)
Fixpoint sum_upto (n : nat) (f : nat -> R) : R :=
  match n with
  | O => 0
  | S m => sum_upto m f + f m
  end.

(** [a.dot(b)].  A 0-d operand multiplies elementwise.  Otherwise the last
    axis of [a] is contracted with the only axis of a 1-d [b], or with the
    second-to-last axis of a higher-dimensional [b]; the two lengths must
    agree. *)
Definition dot (a b : ndarray) : result ndarray :=
  match shape a, shape b with
  | [], _ => Ok (ufunc (Rmult (get a [])) b)
  | _, [] => Ok (ufunc (fun x => x * get b []) a)
  | sa, [kb] =>
      let ka := last sa 0%nat in
      if Nat.eqb ka kb then
        Ok (tabulate (removelast sa)
              (fun i => sum_upto ka (fun k => get a (i ++ [k]) * get b [k])))
      else Raise (ValueError (NpNotAligned sa [kb]))
  | sa, sb =>
      let ka := last sa 0%nat in
      let kb := last (removelast sb) 0%nat in
      let na := length (removelast sa) in
      if Nat.eqb ka kb then
        Ok (tabulate (removelast sa ++ removelast (removelast sb) ++ [last sb 0%nat])
              (fun idx =>
                 let i := firstn na idx in
                 let rest := skipn na idx in
                 let j := removelast rest in
                 let m := last rest 0%nat in
                 sum_upto ka (fun k => get a (i ++ [k]) * get b (j ++ [k; m]))))
      else Raise (ValueError (NpNotAligned sa sb))
  end.

(** Broadcasting of two shapes, on the reversed (innermost first) lists:
    paired lengths must be equal or one of them 1. *)
Fixpoint broadcast_rev (s1 s2 : list nat) : option (list nat) :=
  match s1, s2 with
  | [], s => Some s
  | s, [] => Some s
  | n :: t1, m :: t2 =>
      if Nat.eqb n m then option_map (cons n) (broadcast_rev t1 t2)
      else if Nat.eqb n 1 then option_map (cons m) (broadcast_rev t1 t2)
      else if Nat.eqb m 1 then option_map (cons n) (broadcast_rev t1 t2)
      else None
  end.

Definition broadcast_shapes (s1 s2 : list nat) : option (list nat) :=
  option_map (@rev nat) (broadcast_rev (rev s1) (rev s2)).

(** The index of an operand of shape [sh] that feeds position [idx] of the
    broadcast result: the trailing axes of [idx], pinned to 0 along axes of
    length 1. *)
Fixpoint pin (sh idx : list nat) : list nat :=
  match sh, idx with
  | n :: t, i :: it => (if Nat.eqb n 1 then 0%nat else i) :: pin t it
  | _, _ => []
  end.

Definition operand_index (sh idx : list nat) : list nat :=
  pin sh (skipn (length idx - length sh) idx).

(** A binary elementwise operator with broadcasting. *)
Definition broadcast2 (op : R -> R -> R) (a b : ndarray) : result ndarray :=
  match broadcast_shapes (shape a) (shape b) with
  | Some sh =>
      Ok (tabulate sh (fun idx =>
            op (get a (operand_index (shape a) idx))
               (get b (operand_index (shape b) idx))))
  | None => Raise (ValueError (NpBroadcast (shape a) (shape b)))
  end.

Definition add : ndarray -> ndarray -> result ndarray := broadcast2 Rplus.
Definition multiply : ndarray -> ndarray -> result ndarray := broadcast2 Rmult.

(** [a[:k]]: the first [k] entries along the leading axis. *)
Definition take (k : nat) (a : ndarray) : ndarray :=
  match shape a with
  | [] => a
  | n :: t => mk_ndarray (Nat.min k n :: t) (firstn (Nat.min k n * size t) (data a))
  end.

End Np.

Import Np.

Open Scope R_scope.

(** ** geometry.py *)

Module Geometry.

Definition apply_rotation (strings : ndarray) (rotation_angle : R)
  : result ndarray :=
  d <- shape_last strings ;;
  if negb (Nat.eqb d 2) then
    Raise (ValueError (FString
      [Lit "strings needs to have shape (N, 2) but has shape ";
       FmtShape (shape strings); Lit "."]))
  else
    rotation_matrix <-
      array [array1 [cos rotation_angle; - sin rotation_angle];
             array1 [sin rotation_angle; cos rotation_angle]] ;;
    r <- dot rotation_matrix (T strings) ;;
    Ok (T r).

Definition apply_displacement (strings displacement : ndarray)
  : result ndarray :=
  if negb (shape_eqb (shape displacement) [2%nat]) then
    Raise (ValueError (FString
      [Lit "displacement needs to have shape (2,) but has shape ";
       FmtShape (shape displacement); Lit "."]))
  else add displacement strings.

Definition apply_transformations (strings displacement : ndarray)
  (rotation_angle : R) : result ndarray :=
  d <- shape_last strings ;;
  if negb (Nat.eqb d 2) then
    Raise (ValueError (FString
      [Lit "strings needs to have shape (N, 2) but has shape ";
       FmtShape (shape strings); Lit "."]))
  else
    moved_strings <- apply_rotation strings rotation_angle ;;
    moved_strings <- apply_displacement moved_strings displacement ;;
    Ok moved_strings.

Definition create_symmetry (N_symmetry : Z) (starting_angle : R)
  (N_partial : Z) : result ndarray :=
  if (N_partial >=? N_symmetry)%Z then
    Raise (ValueError (FString
      [Lit "N_partial ("; FmtInt N_partial;
       Lit ") is larger than N_symmetry ("; FmtInt N_symmetry; Lit "). "]))
  else if (N_symmetry =? 0)%Z then Raise ZeroDivisionError
  else
    let sym_angle := deg2rad (360 / IZR N_symmetry) in
    let stepper :=
      if (N_partial =? 0)%Z then arange N_symmetry else arange N_partial in
    scaled <- multiply (scalar sym_angle) stepper ;;
    all_angles <- add (scalar starting_angle) scaled ;;
    pair <- array [np_cos all_angles; np_sin all_angles] ;;
    let n_gon := T pair in
    Ok n_gon.

End Geometry.

(** ** transformations.py *)

Module Transformations.

Definition apply_rotation (strings : ndarray) (rotation_angle : R)
  : result ndarray :=
  d <- shape_last strings ;;
  if negb (Nat.eqb d 2) then
    Raise (ValueError (FString
      [Lit "strings needs to have shape (N, 2) but has shape ";
       FmtShape (shape strings); Lit "."]))
  else
    rotation_matrix <-
      array [array1 [cos rotation_angle; - sin rotation_angle];
             array1 [sin rotation_angle; cos rotation_angle]] ;;
    r <- dot rotation_matrix (T strings) ;;
    Ok (T r).

Definition apply_displacement (strings displacement : ndarray)
  : result ndarray :=
  if negb (shape_eqb (shape displacement) [2%nat]) then
    Raise (ValueError (FString
      [Lit "displacement needs to have shape (2,) but has shape ";
       FmtShape (shape displacement); Lit "."]))
  else add displacement strings.

Definition apply_transformations (strings displacement : ndarray)
  (rotation_angle : R) : result ndarray :=
  d <- shape_last strings ;;
  if negb (Nat.eqb d 2) then
    Raise (ValueError (FString
      [Lit "strings needs to have shape (N, 2) but has shape ";
       FmtShape (shape strings); Lit "."]))
  else
    moved_strings <- apply_rotation strings rotation_angle ;;
    moved_strings <- apply_displacement moved_strings displacement ;;
    Ok moved_strings.

End Transformations.

(** ** The two files as Python modules: the names each one defines *)

Module Repo.

(** A function value bound at module level. *)
Inductive pyfun : Type :=
| Fun_rotation (f : ndarray -> R -> result ndarray)
| Fun_displacement (f : ndarray -> ndarray -> result ndarray)
| Fun_transformations (f : ndarray -> ndarray -> R -> result ndarray)
| Fun_symmetry (f : Z -> R -> Z -> result ndarray).

(** A module namespace: the [def] statements in file order. *)
Definition namespace : Type := list (string * pyfun).

Fixpoint lookup (name : string) (m : namespace) : option pyfun :=
  match m with
  | [] => None
  | (n, f) :: rest => if String.eqb name n then Some f else lookup name rest
  end.

Definition names (m : namespace) : list string := map fst m.

Definition geometry_py : namespace :=
  [("apply_rotation"%string, Fun_rotation Geometry.apply_rotation);
   ("apply_displacement"%string, Fun_displacement Geometry.apply_displacement);
   ("apply_transformations"%string,
      Fun_transformations Geometry.apply_transformations);
   ("create_symmetry"%string, Fun_symmetry Geometry.create_symmetry)].

Definition transformations_py : namespace :=
  [("apply_rotation"%string, Fun_rotation Transformations.apply_rotation);
   ("apply_displacement"%string,
      Fun_displacement Transformations.apply_displacement);
   ("apply_transformations"%string,
      Fun_transformations Transformations.apply_transformations)].

(** The four function names the specification lists. *)
Definition four_functions : list string :=
  ["apply_rotation"; "apply_displacement"; "apply_transformations";
   "create_symmetry"]%string.

(** The names both files define. *)
Definition shared_functions : list string :=
  ["apply_rotation"; "apply_displacement"; "apply_transformations"]%string.

(** The two modules are duplicates on a list of names: each name is defined
    in both, by the same function. *)
Definition duplicates_on (l : list string) : Prop :=
  Forall (fun n => exists f, lookup n geometry_py = Some f /\
                             lookup n transformations_py = Some f) l.

End Repo.


(** ** Definitions the statements use *)

(** The rows of an (N, 2) array as coordinate pairs. *)
Definition rows (a : ndarray) : list (R * R) :=
  map (fun i => (get a [i; 0%nat], get a [i; 1%nat])) (seq 0 (hd 0%nat (shape a))).

(** Counter-clockwise rotation of one point about the origin, as the
    specification writes it. *)
Definition ccw_rotation (a : R) (p : R * R) : R * R :=
  (fst p * cos a - snd p * sin a, fst p * sin a + snd p * cos a).


(** One point moved by the displacement vector [d], as the specification
    writes it: [points[i] + displacement]. *)
Definition displace (d : ndarray) (p : R * R) : R * R :=
  (fst p + get d [0%nat], snd p + get d [1%nat]).

(** The exception [apply_displacement] raises on a displacement of the
    wrong shape. *)
Definition displacement_shape_error (d : ndarray) : exn :=
  ValueError (FString
    [Lit "displacement needs to have shape (2,) but has shape ";
     FmtShape (shape d); Lit "."]).

(** Vertex [k] of the n-gon, as the specification writes it:
    [angle_k = starting_angle + k * (2 pi / N_symmetry)] and the point
    [(cos angle_k, sin angle_k)]. *)
Definition ngon_vertex (N_symmetry : Z) (starting_angle : R) (k : nat) : R * R :=
  (cos (starting_angle + INR k * (2 * PI / IZR N_symmetry)),
   sin (starting_angle + INR k * (2 * PI / IZR N_symmetry))).

(** The number of vertices the specification announces. *)
Definition vertex_count (N_symmetry N_partial : Z) : nat :=
  Z.to_nat (if (N_partial =? 0)%Z then N_symmetry else N_partial).

(** The exception [create_symmetry] raises when its guard fires. *)
Definition partial_error (N_symmetry N_partial : Z) : exn :=
  ValueError (FString
    [Lit "N_partial ("; FmtInt N_partial;
     Lit ") is larger than N_symmetry ("; FmtInt N_symmetry; Lit "). "]).

(** The prefix property of partial shapes at one input: the call with
    [N_partial = k] yields the first [k] rows of the full call. *)
Definition partial_is_first_rows (N : Z) (starting_angle : R) (k : Z) : Prop :=
  exists full part,
    Geometry.create_symmetry N starting_angle 0 = Ok full /\
    Geometry.create_symmetry N starting_angle k = Ok part /\
    part = take (Z.to_nat k) full.

(** Squared distance of a point from the origin, and between two points. *)
Definition sq_norm (p : R * R) : R := fst p * fst p + snd p * snd p.

Definition sq_dist (p q : R * R) : R :=
  sq_norm (fst p - fst q, snd p - snd q).

(** The exception [apply_rotation] and [apply_transformations] raise on an
    array whose last axis is not of length 2. *)
Definition strings_shape_error (strings : ndarray) : exn :=
  ValueError (FString
    [Lit "strings needs to have shape (N, 2) but has shape ";
     FmtShape (shape strings); Lit "."]).

(** Unary minus on an array, [-a]. *)
Definition negative (a : ndarray) : ndarray := ufunc Ropp a.
(** ** Indexing lemmas for the array model *)

Section Indexing.

Local Open Scope nat_scope.

Lemma ravel_lt (sh idx : list nat) :
  in_range sh idx -> ravel sh idx < size sh.
Proof.
  revert idx; induction sh as [|n t IH]; intros [|i it]; simpl; try tauto.
  - intros _; lia.
  - intros [Hi Hit]. specialize (IH _ Hit). nia.
Qed.

Lemma unravel_ravel (sh idx : list nat) :
  in_range sh idx -> unravel sh (ravel sh idx) = idx.
Proof.
  revert idx; induction sh as [|n t IH]; intros [|i it]; simpl; try tauto.
  intros [Hi Hit].
  pose proof (ravel_lt t it Hit) as Hlt.
  assert (Hpos : size t <> 0) by lia.
  rewrite Nat.add_comm, Nat.div_add, Nat.Div0.mod_add by assumption.
  rewrite Nat.div_small, Nat.mod_small by assumption.
  simpl. now rewrite IH.
Qed.

Lemma in_range_unravel (sh : list nat) (k : nat) :
  k < size sh -> in_range sh (unravel sh k).
Proof.
  revert k; induction sh as [|n t IH]; intros k Hk; simpl in *; [exact I|].
  assert (Hpos : size t <> 0) by (intros E; rewrite E in Hk; lia).
  split.
  - apply Nat.Div0.div_lt_upper_bound. lia.
  - apply IH. now apply Nat.mod_upper_bound.
Qed.

Lemma ravel_unravel (sh : list nat) (k : nat) :
  k < size sh -> ravel sh (unravel sh k) = k.
Proof.
  revert k; induction sh as [|n t IH]; intros k Hk; simpl in *; [lia|].
  assert (Hpos : size t <> 0) by (intros E; rewrite E in Hk; lia).
  rewrite IH by now apply Nat.mod_upper_bound.
  rewrite (Nat.div_mod_eq k (size t)) at 3. lia.
Qed.

End Indexing.

Lemma wf_tabulate (sh : list nat) (f : list nat -> R) : wf (tabulate sh f).
Proof. unfold wf, tabulate; simpl. now rewrite length_map, length_seq. Qed.

Lemma shape_tabulate (sh : list nat) (f : list nat -> R) :
  shape (tabulate sh f) = sh.
Proof. reflexivity. Qed.

Lemma get_tabulate (sh : list nat) (f : list nat -> R) (idx : list nat) :
  in_range sh idx -> get (tabulate sh f) idx = f idx.
Proof.
  intros H. unfold get, tabulate; simpl.
  pose proof (ravel_lt sh idx H) as Hlt.
  rewrite (nth_indep _ 0 (f (unravel sh 0%nat)))
    by now rewrite length_map, length_seq.
  rewrite (map_nth (fun k => f (unravel sh k))), seq_nth by assumption.
  simpl. now rewrite unravel_ravel.
Qed.

(** Two well-formed arrays of one shape that agree at every index are the
    same array. *)
Lemma ndarray_ext (a b : ndarray) :
  wf a -> wf b -> shape a = shape b ->
  (forall idx, in_range (shape a) idx -> get a idx = get b idx) ->
  a = b.
Proof.
  destruct a as [sa da], b as [sb db]; unfold wf, get; simpl.
  intros Ha Hb Hs Hget; subst sb. f_equal.
  apply (nth_ext _ _ 0 0); [congruence|].
  intros k Hk. rewrite Ha in Hk.
  specialize (Hget (unravel sa k) (in_range_unravel sa k Hk)).
  now rewrite ravel_unravel in Hget.
Qed.

Lemma T_get (a : ndarray) (idx : list nat) :
  in_range (rev (shape a)) idx -> get (T a) idx = get a (rev idx).
Proof. intros H. unfold T. now rewrite get_tabulate. Qed.

(** ** Rotation *)

Lemma apply_rotation_Nx2 (N : nat) (d : list R) (a : R) :
  let P := mk_ndarray [N; 2%nat] d in
  exists Q, Geometry.apply_rotation P a = Ok Q /\
    shape Q = [N; 2%nat] /\ wf Q /\
    forall i, (i < N)%nat ->
      get Q [i; 0%nat] = get P [i; 0%nat] * cos a - get P [i; 1%nat] * sin a /\
      get Q [i; 1%nat] = get P [i; 0%nat] * sin a + get P [i; 1%nat] * cos a.
Proof.
  intros P. unfold Geometry.apply_rotation. simpl. unfold dot. simpl.
  eexists; split; [reflexivity|].
  split; [reflexivity|]. split; [apply wf_tabulate|].
  intros i Hi.
  assert (HT : forall k, (k < 2)%nat -> get (T P) [k; i] = get P [i; k]).
  { intros k Hk. rewrite T_get by (simpl; lia). reflexivity. }
  split; rewrite T_get by (simpl; lia); simpl rev; simpl app;
    rewrite get_tabulate by (simpl; lia); simpl; fold P;
    rewrite !HT by lia;
    repeat match goal with
    | |- context [get (mk_ndarray [2; 2]%nat ?l) ?idx] =>
        change (get (mk_ndarray [2; 2]%nat l) idx)
          with (nth (ravel [2; 2]%nat idx) l 0);
        simpl ravel; simpl nth
    end; ring.
Qed.

Lemma rows_rotated (P Q : ndarray) (N : nat) (a : R) :
  shape P = [N; 2%nat] -> shape Q = [N; 2%nat] ->
  (forall i, (i < N)%nat ->
      get Q [i; 0%nat] = get P [i; 0%nat] * cos a - get P [i; 1%nat] * sin a /\
      get Q [i; 1%nat] = get P [i; 0%nat] * sin a + get P [i; 1%nat] * cos a) ->
  rows Q = map (ccw_rotation a) (rows P).
Proof.
  intros HP HQ H. unfold rows. rewrite HP, HQ, map_map. simpl hd.
  apply map_ext_in. intros i Hi. apply in_seq in Hi.
  destruct (H i) as [H0 H1]; [lia|].
  unfold ccw_rotation; simpl. now rewrite H0, H1.
Qed.

(** C1: on an (N, 2) array [apply_rotation] succeeds, keeps the shape, and
    row i of the result is the counter-clockwise rotation of row i of the
    input, (x cos a - y sin a, x sin a + y cos a); the point (1, 0) turned by
    pi/2 is (0, 1). *)
Theorem apply_rotation_rotates_rows :
  (forall (P : ndarray) (a : R) (N : nat),
      shape P = [N; 2%nat] ->
      exists Q, Geometry.apply_rotation P a = Ok Q /\
        shape Q = [N; 2%nat] /\ wf Q /\
        rows Q = map (ccw_rotation a) (rows P)) /\
  Geometry.apply_rotation (mk_ndarray [1; 2]%nat [1; 0]) (PI / 2)
    = Ok (mk_ndarray [1; 2]%nat [0; 1]).
Proof.
  split.
  - intros [sh d] a N HP; simpl in HP; subst sh.
    destruct (apply_rotation_Nx2 N d a) as (Q & HQ & Hsh & Hwf & Hrows).
    exists Q. repeat split; try assumption.
    now apply (rows_rotated _ Q N a).
  - unfold Geometry.apply_rotation. simpl. unfold dot. simpl.
    unfold T, tabulate, get; simpl.
    rewrite cos_PI2, sin_PI2. do 2 f_equal.
    repeat (f_equal; try ring).
Qed.

Lemma apply_rotation_rotates_rows_witness :
  exists Q, Geometry.apply_rotation (mk_ndarray [2; 2]%nat [1; 0; 0; 1]) 0 = Ok Q /\
    shape Q = [2; 2]%nat /\ wf Q /\
    rows Q = map (ccw_rotation 0) (rows (mk_ndarray [2; 2]%nat [1; 0; 0; 1])).
Proof.
  apply (proj1 apply_rotation_rotates_rows
           (mk_ndarray [2; 2]%nat [1; 0; 0; 1]) 0 2%nat).
  reflexivity.
Defined.

Lemma bind_Ok_r {A : Type} (r : result A) : (x <- r ;; Ok x) = r.
Proof. now destruct r. Qed.

(** C2: [apply_transformations] is the rotation followed by the
    displacement, with the same array on success and the same exception on
    failure, whatever the shapes of the arguments. *)
Theorem apply_transformations_is_composition
  (P d : ndarray) (a : R) :
  Geometry.apply_transformations P d a
  = (Q <- Geometry.apply_rotation P a ;; Geometry.apply_displacement Q d).
Proof.
  unfold Geometry.apply_transformations.
  unfold Geometry.apply_rotation.
  destruct (shape_last P) as [n|e] eqn:Hlast; simpl; [|reflexivity].
  destruct (negb (n =? 2)%nat) eqn:Hguard; simpl; [reflexivity|].
  destruct (dot _ (T P)) as [r|e]; simpl; [|reflexivity].
  apply bind_Ok_r.
Qed.

(** C6: turning an (N, 2) array by [a] and then by [-a] gives the array
    back, exactly, over the reals. *)
Theorem apply_rotation_inverse (P : ndarray) (a : R) (N : nat) :
  shape P = [N; 2%nat] -> wf P ->
  (Q <- Geometry.apply_rotation P a ;; Geometry.apply_rotation Q (- a)) = Ok P.
Proof.
  destruct P as [sh d]; simpl; intros -> Hwf.
  destruct (apply_rotation_Nx2 N d a) as (Q & HQ & Hsh & HwfQ & Hrows).
  rewrite HQ; simpl.
  destruct Q as [shQ dQ]; simpl in Hsh; subst shQ.
  destruct (apply_rotation_Nx2 N dQ (- a)) as (Q' & HQ' & Hsh' & HwfQ' & Hrows').
  simpl in HQ'. rewrite HQ'. f_equal.
  apply ndarray_ext; try assumption.
  rewrite Hsh'. intros [|i [|j [|k rest]]]; simpl; try tauto.
  intros (Hi & Hj & _).
  destruct (Hrows i Hi) as [H0 H1], (Hrows' i Hi) as [H0' H1'].
  pose proof (sin2_cos2 a) as Hsc; unfold Rsqr in Hsc.
  rewrite cos_neg, sin_neg in H0', H1'.
  destruct j as [|[|j]]; [| |lia].
  - rewrite H0', H0, H1.
    replace (get {| shape := [N; 2%nat]; data := d |} [i; 0%nat])
      with (get {| shape := [N; 2%nat]; data := d |} [i; 0%nat]
            * (sin a * sin a + cos a * cos a)) at 3 by (rewrite Hsc; ring).
    ring.
  - rewrite H1', H0, H1.
    replace (get {| shape := [N; 2%nat]; data := d |} [i; 1%nat])
      with (get {| shape := [N; 2%nat]; data := d |} [i; 1%nat]
            * (sin a * sin a + cos a * cos a)) at 3 by (rewrite Hsc; ring).
    ring.
Qed.

Lemma apply_rotation_inverse_witness :
  (Q <- Geometry.apply_rotation (mk_ndarray [2; 2]%nat [1; 2; 3; 4]) 1 ;;
   Geometry.apply_rotation Q (- 1))
  = Ok (mk_ndarray [2; 2]%nat [1; 2; 3; 4]).
Proof.
  apply (apply_rotation_inverse (mk_ndarray [2; 2]%nat [1; 2; 3; 4]) 1 2);
    reflexivity.
Defined.

(** C7: an empty point set of shape (0, 2) passes the shape check and comes
    back as the empty (0, 2) array, for any angle. *)
Theorem apply_rotation_empty (P : ndarray) (a : R) :
  shape P = [0; 2]%nat ->
  Geometry.apply_rotation P a = Ok (mk_ndarray [0; 2]%nat []).
Proof.
  destruct P as [sh d]; simpl; intros ->. reflexivity.
Qed.

Lemma apply_rotation_empty_witness :
  Geometry.apply_rotation (mk_ndarray [0; 2]%nat []) PI
  = Ok (mk_ndarray [0; 2]%nat []).
Proof.
  apply (apply_rotation_empty (mk_ndarray [0; 2]%nat []) PI). reflexivity.
Defined.

(** C10: only the last entry of the shape is checked, so a 1-d array of
    shape (2,) is accepted, and the result is the single rotated point
    (cos a * x - sin a * y, sin a * x + cos a * y), of shape (2,). *)
Theorem apply_rotation_accepts_1d (x y a : R) :
  shape_last (array1 [x; y]) = Ok 2%nat /\
  Geometry.apply_rotation (array1 [x; y]) a
  = Ok (array1 [cos a * x - sin a * y; sin a * x + cos a * y]).
Proof.
  split; [reflexivity|].
  unfold Geometry.apply_rotation. simpl. unfold dot. simpl.
  unfold T, tabulate, get, array1; simpl.
  do 2 f_equal. repeat (f_equal; try ring).
Qed.

(** ** Displacement *)

Lemma shape_eqb_eq (s1 s2 : list nat) : shape_eqb s1 s2 = true <-> s1 = s2.
Proof.
  unfold shape_eqb. destruct (list_eq_dec Nat.eq_dec s1 s2); split;
    intros; congruence.
Qed.

Lemma shape_eqb_refl (s : list nat) : shape_eqb s s = true.
Proof. now apply shape_eqb_eq. Qed.

Lemma add_not_FString (a b : ndarray) (parts : list fragment) :
  add a b <> Raise (ValueError (FString parts)).
Proof.
  unfold add, broadcast2.
  destruct (broadcast_shapes (shape a) (shape b)); discriminate.
Qed.

Lemma add_2_Nx2 (N : nat) (dd dP : list R) :
  let d := mk_ndarray [2%nat] dd in
  let P := mk_ndarray [N; 2%nat] dP in
  exists Q, add d P = Ok Q /\ shape Q = [N; 2%nat] /\ wf Q /\
    forall i j, (i < N)%nat -> (j < 2)%nat ->
      get Q [i; j] = get d [j] + get P [i; j].
Proof.
  intros d P. unfold add, broadcast2. simpl.
  eexists; split; [reflexivity|].
  split; [reflexivity|]. split; [apply wf_tabulate|].
  intros i j Hi Hj.
  rewrite get_tabulate by (simpl; lia).
  unfold operand_index; simpl.
  destruct (N =? 1)%nat eqn:HN; [|reflexivity].
  apply Nat.eqb_eq in HN. now replace i with 0%nat by lia.
Qed.

(** Outside the documented shapes: a trailing axis of length 3 does not
    broadcast against (2,), and numpy's addition raises. *)
Example apply_displacement_broadcast_mismatch :
  Geometry.apply_displacement
    (mk_ndarray [1; 3]%nat [1; 2; 3]) (mk_ndarray [2%nat] [10; 20])
  = Raise (ValueError (NpBroadcast [2%nat] [1; 3]%nat)).
Proof. reflexivity. Qed.

(** C4, as amended: [apply_displacement] raises its own shape error, which
    reports the shape of [displacement], exactly when that shape is not
    (2,), whatever the points are; on points of shape (N, 2) a ValueError is
    raised exactly when the shape of [displacement] is not (2,); and with a
    displacement of shape (2,) and points of shape (N, 2) row i of the
    result is [points[i] + displacement]. *)
Theorem apply_displacement_guard_and_rows :
  (forall P d : ndarray,
      Geometry.apply_displacement P d = Raise (displacement_shape_error d)
      <-> shape d <> [2%nat]) /\
  (forall (P d : ndarray) (N : nat),
      shape P = [N; 2%nat] ->
      (raises_ValueError (Geometry.apply_displacement P d) = true
       <-> shape d <> [2%nat])) /\
  (forall (P d : ndarray) (N : nat),
      shape P = [N; 2%nat] -> shape d = [2%nat] ->
      exists Q, Geometry.apply_displacement P d = Ok Q /\
        shape Q = [N; 2%nat] /\ wf Q /\
        rows Q = map (displace d) (rows P)).
Proof.
  assert (Hrows : forall (P d : ndarray) (N : nat),
      shape P = [N; 2%nat] -> shape d = [2%nat] ->
      exists Q, Geometry.apply_displacement P d = Ok Q /\
        shape Q = [N; 2%nat] /\ wf Q /\
        rows Q = map (displace d) (rows P)).
  { intros [shP dP] [shd dd] N; simpl; intros -> ->.
    unfold Geometry.apply_displacement; simpl.
    destruct (add_2_Nx2 N dd dP) as (Q & HQ & Hsh & Hwf & Hget).
    exists Q. repeat split; try assumption.
    unfold rows. rewrite Hsh, map_map. simpl hd.
    apply map_ext_in. intros i Hi. apply in_seq in Hi.
    unfold displace; simpl fst; simpl snd.
    rewrite !Hget by lia. f_equal; ring. }
  split; [|split; [|exact Hrows]].
  - intros P d. unfold Geometry.apply_displacement, displacement_shape_error.
    destruct (shape_eqb (shape d) [2%nat]) eqn:E; simpl.
    + apply shape_eqb_eq in E. split; [|congruence].
      intros H. now apply add_not_FString in H.
    + split; [|reflexivity]. intros _ H.
      apply shape_eqb_eq in H. congruence.
  - intros P d N HP.
    destruct (list_eq_dec Nat.eq_dec (shape d) [2%nat]) as [Hd|Hd].
    + destruct (Hrows P d N HP Hd) as (Q & HQ & _). rewrite HQ; simpl.
      split; [discriminate|congruence].
    + split; [intros _; exact Hd|intros _].
      unfold Geometry.apply_displacement.
      destruct (shape_eqb (shape d) [2%nat]) eqn:E; [|reflexivity].
      apply shape_eqb_eq in E. congruence.
Qed.

Lemma apply_displacement_guard_and_rows_witness :
  exists Q,
    Geometry.apply_displacement
      (mk_ndarray [2; 2]%nat [1; 2; 3; 4]) (mk_ndarray [2%nat] [10; 20]) = Ok Q /\
    shape Q = [2; 2]%nat /\ wf Q /\
    rows Q = map (displace (mk_ndarray [2%nat] [10; 20]))
               (rows (mk_ndarray [2; 2]%nat [1; 2; 3; 4])).
Proof.
  apply (proj2 (proj2 apply_displacement_guard_and_rows)
           (mk_ndarray [2; 2]%nat [1; 2; 3; 4]) (mk_ndarray [2%nat] [10; 20])
           2%nat); reflexivity.
Defined.

(** C4, counterexample: with points of shape (1, 3) and a displacement of
    shape (2,) a ValueError is raised, by numpy's broadcasting, although the
    displacement has shape exactly (2,). *)
Lemma apply_displacement_raises_for_valid_displacement :
  let P := mk_ndarray [1; 3]%nat [1; 2; 3] in
  let d := mk_ndarray [2%nat] [10; 20] in
  shape d = [2%nat] /\
  raises_ValueError (Geometry.apply_displacement P d) = true /\
  ~ (raises_ValueError (Geometry.apply_displacement P d) = true
     <-> shape d <> [2%nat]).
Proof.
  cbv zeta. split; [reflexivity|]. split; [reflexivity|].
  intros [H _]. apply H; reflexivity.
Qed.

(** ** Symmetric shapes *)

Lemma operand_index_1d (c k : nat) :
  (k < c)%nat -> operand_index [c] [k] = [k].
Proof.
  intros Hk. unfold operand_index; simpl.
  destruct (c =? 1)%nat eqn:E; [|reflexivity].
  apply Nat.eqb_eq in E. now replace k with 0%nat by lia.
Qed.

Lemma scalar_op_1d (op : R -> R -> R) (x : R) (b : ndarray) (c : nat) :
  shape b = [c] ->
  exists r, broadcast2 op (scalar x) b = Ok r /\ shape r = [c] /\ wf r /\
    forall k, (k < c)%nat -> get r [k] = op x (get b [k]).
Proof.
  intros Hb. unfold broadcast2. rewrite Hb. simpl.
  eexists; split; [reflexivity|].
  split; [reflexivity|]. split; [apply wf_tabulate|].
  intros k Hk. rewrite get_tabulate by (simpl; lia).
  now rewrite operand_index_1d.
Qed.

Lemma get_arange (n : Z) (k : nat) :
  (k < Z.to_nat n)%nat -> get (arange n) [k] = INR k.
Proof.
  intros Hk. unfold get, arange; simpl.
  rewrite Nat.mul_1_r, Nat.add_0_r.
  rewrite (nth_indep _ 0 (INR 0)) by now rewrite length_map, length_seq.
  now rewrite map_nth, seq_nth.
Qed.

Lemma get_ufunc_1d (f : R -> R) (a : ndarray) (c k : nat) :
  shape a = [c] -> wf a -> (k < c)%nat ->
  get (ufunc f a) [k] = f (get a [k]).
Proof.
  destruct a as [sh d]; unfold wf, get; simpl; intros -> Hwf Hk.
  simpl in *. rewrite Nat.mul_1_r in Hwf. rewrite Nat.mul_1_r, Nat.add_0_r.
  rewrite (nth_indep _ 0 (f 0)) by (rewrite length_map; lia).
  apply map_nth.
Qed.

Lemma stack_pair_T (u v : ndarray) (c : nat) :
  shape u = [c] -> shape v = [c] -> wf u -> wf v ->
  exists s, array [u; v] = Ok s /\
    shape (T s) = [c; 2%nat] /\ wf (T s) /\
    forall k, (k < c)%nat ->
      get (T s) [k; 0%nat] = get u [k] /\ get (T s) [k; 1%nat] = get v [k].
Proof.
  intros Hsu Hsv Hu Hv.
  destruct u as [su du], v as [sv dv]; unfold wf in Hu, Hv; simpl in *.
  subst su sv. simpl in Hu, Hv. rewrite Nat.mul_1_r in Hu, Hv.
  unfold array. simpl forallb. rewrite shape_eqb_refl. simpl.
  eexists; split; [reflexivity|].
  split; [reflexivity|]. split; [apply wf_tabulate|].
  intros k Hk.
  split; rewrite T_get by (simpl; lia); unfold get; simpl;
    rewrite ?Nat.mul_1_r, ?Nat.add_0_r.
  - now rewrite app_nth1 by lia.
  - rewrite app_nth2 by lia. rewrite app_nth1 by lia. f_equal. lia.
Qed.

Lemma deg2rad_full_turn (N : Z) :
  N <> 0%Z -> deg2rad (360 / IZR N) = 2 * PI / IZR N.
Proof.
  intros HN. unfold deg2rad.
  assert (IZR N <> 0) by (now apply not_0_IZR).
  field. assumption.
Qed.

(** The path of [create_symmetry] past its guard, for a stepper of [c]
    entries. *)
Lemma create_symmetry_vertices (N Np : Z) (sa : R) :
  (Np < N)%Z -> N <> 0%Z ->
  exists Q, Geometry.create_symmetry N sa Np = Ok Q /\
    shape Q = [vertex_count N Np; 2%nat] /\ wf Q /\
    forall k, (k < vertex_count N Np)%nat ->
      (get Q [k; 0%nat], get Q [k; 1%nat]) = ngon_vertex N sa k.
Proof.
  intros Hlt HN. unfold Geometry.create_symmetry.
  replace (Np >=? N)%Z with false
    by (symmetry; rewrite Z.geb_leb; now apply Z.leb_gt).
  replace (N =? 0)%Z with false by (symmetry; now apply Z.eqb_neq).
  rewrite (deg2rad_full_turn N HN).
  set (c := vertex_count N Np).
  set (stepper := if (Np =? 0)%Z then arange N else arange Np).
  assert (Hst : shape stepper = [c] /\
                forall k, (k < c)%nat -> get stepper [k] = INR k).
  { unfold stepper, c, vertex_count.
    destruct (Np =? 0)%Z; (split; [reflexivity|apply get_arange]). }
  destruct Hst as [Hsh Hget].
  destruct (scalar_op_1d Rmult (2 * PI / IZR N) stepper c Hsh)
    as (scaled & Hscaled & Hs1 & Hs2 & Hs3).
  unfold multiply; rewrite Hscaled; cbn [bind].
  destruct (scalar_op_1d Rplus sa scaled c Hs1)
    as (angles & Hangles & Ha1 & Ha2 & Ha3).
  unfold add; rewrite Hangles; cbn [bind].
  destruct (stack_pair_T (np_cos angles) (np_sin angles) c)
    as (s & Hs & HT1 & HT2 & HT3);
    try exact Ha1; try (unfold wf, np_cos, np_sin, ufunc; simpl;
                        rewrite length_map; exact Ha2).
  rewrite Hs; cbn [bind].
  exists (T s). repeat split; try assumption.
  intros k Hk. destruct (HT3 k Hk) as [H0 H1]. rewrite H0, H1.
  unfold np_cos, np_sin.
  rewrite !(get_ufunc_1d _ angles c k Ha1 Ha2 Hk).
  rewrite (Ha3 k Hk), (Hs3 k Hk), (Hget k Hk).
  unfold ngon_vertex. f_equal; f_equal; ring.
Qed.

Lemma vertex_count_full (N : Z) : vertex_count N 0 = Z.to_nat N.
Proof. reflexivity. Qed.

Lemma vertex_count_partial (N Np : Z) :
  Np <> 0%Z -> vertex_count N Np = Z.to_nat Np.
Proof.
  intros H. unfold vertex_count.
  now replace (Np =? 0)%Z with false by (symmetry; now apply Z.eqb_neq).
Qed.

Lemma rows_vertices (Q : ndarray) (N : Z) (sa : R) (c : nat) :
  shape Q = [c; 2%nat] ->
  (forall k, (k < c)%nat ->
     (get Q [k; 0%nat], get Q [k; 1%nat]) = ngon_vertex N sa k) ->
  rows Q = map (ngon_vertex N sa) (seq 0 c).
Proof.
  intros Hsh H. unfold rows. rewrite Hsh. simpl hd.
  apply map_ext_in. intros k Hk. apply in_seq in Hk. apply H. lia.
Qed.

Lemma create_symmetry_prefix (N k : Z) (sa : R) :
  (1 <= k < N)%Z -> partial_is_first_rows N sa k.
Proof.
  intros Hk.
  destruct (create_symmetry_vertices N 0 sa) as (F & HF & HFs & HFw & HFv);
    [lia|lia|].
  destruct (create_symmetry_vertices N k sa) as (Q & HQ & HQs & HQw & HQv);
    [lia|lia|].
  rewrite vertex_count_full in HFs, HFv.
  rewrite vertex_count_partial in HQs, HQv by lia.
  exists F, Q. split; [assumption|]. split; [assumption|].
  assert (Hlt : (Z.to_nat k < Z.to_nat N)%nat) by lia.
  destruct F as [shF dF]; simpl in HFs; subst shF.
  unfold wf in HFw; simpl in HFw.
  unfold take; cbn [shape data size fold_right].
  rewrite Nat.min_l by lia.
  apply ndarray_ext.
  - assumption.
  - unfold wf; simpl. rewrite length_firstn, HFw. lia.
  - assumption.
  - rewrite HQs. intros [|i [|j [|x rest]]]; simpl; try tauto.
    intros (Hi & Hj & _).
    specialize (HQv i Hi). specialize (HFv i (Nat.lt_trans _ _ _ Hi Hlt)).
    rewrite <- HFv in HQv. injection HQv as H0 H1.
    assert (Hget : forall j', (j' < 2)%nat ->
              get {| shape := [Z.to_nat k; 2%nat];
                     data := firstn (Z.to_nat k * 2) dF |} [i; j']
              = get {| shape := [Z.to_nat N; 2%nat]; data := dF |} [i; j']).
    { intros j' Hj'. unfold get; simpl. rewrite nth_firstn.
      replace (_ <? _)%nat with true; [reflexivity|].
      symmetry. apply Nat.ltb_lt. lia. }
    rewrite Hget by assumption.
    destruct j as [|[|j]]; [assumption|assumption|lia].
Qed.

(** C3, as amended: for [N_symmetry >= 1] and [0 <= N_partial <
    N_symmetry] the result has shape (count, 2) with count = N_symmetry if
    N_partial == 0 else N_partial, and row k is (cos angle_k, sin angle_k)
    with angle_k = starting_angle + k * (2 pi / N_symmetry); for a nonzero
    N_partial = k the result is the first k rows of the full shape (for
    N_partial = 0 the count is N_symmetry, the full shape). *)
Theorem create_symmetry_rows_and_prefix (N Np : Z) (sa : R) :
  (1 <= N)%Z -> (0 <= Np < N)%Z ->
  (exists Q, Geometry.create_symmetry N sa Np = Ok Q /\
     shape Q = [vertex_count N Np; 2%nat] /\ wf Q /\
     rows Q = map (ngon_vertex N sa) (seq 0 (vertex_count N Np))) /\
  (Np <> 0%Z -> partial_is_first_rows N sa Np).
Proof.
  intros HN HNp. split.
  - destruct (create_symmetry_vertices N Np sa) as (Q & HQ & Hs & Hw & Hv);
      [lia|lia|].
    exists Q. repeat split; try assumption.
    now apply rows_vertices.
  - intros H0. apply create_symmetry_prefix. lia.
Qed.

Lemma create_symmetry_rows_and_prefix_witness :
  (exists Q, Geometry.create_symmetry 5 0 2 = Ok Q /\
     shape Q = [vertex_count 5 2; 2%nat] /\ wf Q /\
     rows Q = map (ngon_vertex 5 0) (seq 0 (vertex_count 5 2))) /\
  (2%Z <> 0%Z -> partial_is_first_rows 5 0 2).
Proof.
  apply (create_symmetry_rows_and_prefix 5 2 0); lia.
Defined.

(** C3, counterexample: with [N_symmetry = 1] and [N_partial = 0], inside
    the stated range, the result has one row and is not the first 0 rows
    of the full shape. *)
Lemma create_symmetry_prefix_fails_at_zero :
  (1 <= 1)%Z /\ (0 <= 0 < 1)%Z /\ ~ partial_is_first_rows 1 0 0.
Proof.
  split; [lia|]. split; [lia|].
  intros (full & part & Hfull & Hpart & Htake).
  destruct (create_symmetry_vertices 1 0 0) as (F & HF & HFs & _); [lia|lia|].
  rewrite HF in Hfull, Hpart.
  injection Hfull as <-. injection Hpart as <-.
  apply (f_equal shape) in Htake. unfold take in Htake.
  rewrite HFs in Htake. simpl in Htake. discriminate.
Qed.

(** C5, as amended: a nonzero [N_partial >= N_symmetry] raises the
    ValueError of the guard, as in create_symmetry(5, N_partial=5); with
    [N_partial = 0] the call succeeds for every [N_symmetry >= 1], and the
    same guard raises for every [N_symmetry <= 0]. *)
Theorem create_symmetry_guard :
  (forall (N Np : Z) (sa : R),
      Np <> 0%Z -> (Np >= N)%Z ->
      Geometry.create_symmetry N sa Np = Raise (partial_error N Np)) /\
  (forall sa : R,
      Geometry.create_symmetry 5 sa 5 = Raise (partial_error 5 5)) /\
  (forall (N : Z) (sa : R),
      (1 <= N)%Z -> is_ok (Geometry.create_symmetry N sa 0) = true) /\
  (forall (N : Z) (sa : R),
      (N <= 0)%Z ->
      Geometry.create_symmetry N sa 0 = Raise (partial_error N 0)).
Proof.
  assert (Hguard : forall (N Np : Z) (sa : R), (Np >= N)%Z ->
            Geometry.create_symmetry N sa Np = Raise (partial_error N Np)).
  { intros N Np sa H. unfold Geometry.create_symmetry.
    replace (Np >=? N)%Z with true; [reflexivity|].
    symmetry. rewrite Z.geb_leb. apply Z.leb_le. lia. }
  split; [|split; [|split]].
  - intros N Np sa _ H. now apply Hguard.
  - intros sa. reflexivity.
  - intros N sa HN.
    destruct (create_symmetry_vertices N 0 sa) as (Q & HQ & _); [lia|lia|].
    now rewrite HQ.
  - intros N sa HN. apply Hguard. lia.
Qed.

Lemma create_symmetry_guard_witness :
  Geometry.create_symmetry 3 0 7 = Raise (partial_error 3 7) /\
  is_ok (Geometry.create_symmetry 4 0 0) = true /\
  Geometry.create_symmetry (-2) 0 0 = Raise (partial_error (-2) 0).
Proof.
  split; [|split].
  - apply (proj1 create_symmetry_guard 3%Z 7%Z 0); lia.
  - apply (proj1 (proj2 (proj2 create_symmetry_guard)) 4%Z 0); lia.
  - apply (proj2 (proj2 (proj2 create_symmetry_guard)) (-2)%Z 0); lia.
Defined.

(** C5, counterexample: with [N_partial = 0] and [N_symmetry = 0] the guard
    [N_partial >= N_symmetry] holds and the call raises. *)
Lemma create_symmetry_zero_symmetry_raises :
  Geometry.create_symmetry 0 0 0 = Raise (partial_error 0 0) /\
  is_ok (Geometry.create_symmetry 0 0 0) = false.
Proof. split; reflexivity. Qed.

(** C9: for [N_symmetry >= 1] and a negative [N_partial] the guard does not
    fire and the result is the empty array of shape (0, 2). *)
Theorem create_symmetry_negative_partial (N Np : Z) (sa : R) :
  (1 <= N)%Z -> (Np < 0)%Z ->
  (Np >=? N)%Z = false /\
  Geometry.create_symmetry N sa Np = Ok (mk_ndarray [0; 2]%nat []).
Proof.
  intros HN HNp. split.
  - rewrite Z.geb_leb. apply Z.leb_gt. lia.
  - destruct (create_symmetry_vertices N Np sa) as (Q & HQ & Hs & Hw & _);
      [lia|lia|].
    rewrite HQ. f_equal.
    rewrite vertex_count_partial in Hs by lia.
    replace (Z.to_nat Np) with 0%nat in Hs by lia.
    destruct Q as [sh d]; unfold wf in Hw; simpl in *; subst sh.
    simpl in Hw. apply length_zero_iff_nil in Hw. now subst d.
Qed.

Lemma create_symmetry_negative_partial_witness :
  (-3 >=? 6)%Z = false /\
  Geometry.create_symmetry 6 0 (-3) = Ok (mk_ndarray [0; 2]%nat []).
Proof.
  apply (create_symmetry_negative_partial 6 (-3) 0); lia.
Defined.

(** ** The two files *)

(** C8, as amended: transformations.py defines three of the four functions
    of geometry.py, apply_rotation, apply_displacement and
    apply_transformations, each equal to its namesake on every input;
    create_symmetry is defined in geometry.py only. *)
Theorem transformations_duplicates_three :
  Repo.names Repo.geometry_py = Repo.four_functions /\
  Repo.names Repo.transformations_py = Repo.shared_functions /\
  Repo.duplicates_on Repo.shared_functions /\
  (forall P a, Transformations.apply_rotation P a = Geometry.apply_rotation P a) /\
  (forall P d,
      Transformations.apply_displacement P d = Geometry.apply_displacement P d) /\
  (forall P d a,
      Transformations.apply_transformations P d a
      = Geometry.apply_transformations P d a) /\
  Repo.lookup "create_symmetry" Repo.transformations_py = None /\
  Repo.lookup "create_symmetry" Repo.geometry_py
    = Some (Repo.Fun_symmetry Geometry.create_symmetry).
Proof.
  repeat split.
  unfold Repo.duplicates_on, Repo.shared_functions.
  repeat constructor; eexists; split; reflexivity.
Qed.

(** C8, counterexample: the two files are not duplicates on the four names,
    since transformations.py has no create_symmetry. *)
Lemma transformations_lacks_create_symmetry :
  ~ Repo.duplicates_on Repo.four_functions.
Proof.
  unfold Repo.duplicates_on, Repo.four_functions. intros H.
  rewrite Forall_forall in H.
  destruct (H "create_symmetry"%string) as (f & _ & Hf).
  - simpl. tauto.
  - discriminate.
Qed.

(** ** Further properties of the rotation *)

Lemma rows_length (a : ndarray) : length (rows a) = hd 0%nat (shape a).
Proof. unfold rows. now rewrite length_map, length_seq. Qed.

Lemma rows_nth (a : ndarray) (i : nat) :
  (i < hd 0%nat (shape a))%nat ->
  nth i (rows a) (0, 0) = (get a [i; 0%nat], get a [i; 1%nat]).
Proof.
  intros Hi. unfold rows.
  rewrite (nth_indep _ (0, 0)
             ((fun i => (get a [i; 0%nat], get a [i; 1%nat])) 0%nat))
    by now rewrite length_map, length_seq.
  rewrite (map_nth (fun i => (get a [i; 0%nat], get a [i; 1%nat]))).
  now rewrite seq_nth.
Qed.

(** Two well-formed (N, 2) arrays with the same rows are the same array. *)
Lemma rows_ext (A B : ndarray) (N : nat) :
  wf A -> wf B -> shape A = [N; 2%nat] -> shape B = [N; 2%nat] ->
  rows A = rows B -> A = B.
Proof.
  intros HA HB HsA HsB Hrows.
  apply ndarray_ext; try assumption; [congruence|].
  rewrite HsA. intros [|i [|j [|x rest]]]; simpl; try tauto.
  intros (Hi & Hj & _).
  pose proof (rows_nth A i) as HnA. pose proof (rows_nth B i) as HnB.
  rewrite HsA in HnA. rewrite HsB in HnB. simpl in HnA, HnB.
  rewrite Hrows, HnB in HnA by assumption.
  specialize (HnA Hi). injection HnA as H0 H1.
  destruct j as [|[|j]]; [now symmetry|now symmetry|lia].
Qed.

Lemma apply_rotation_rows (P : ndarray) (a : R) (N : nat) :
  shape P = [N; 2%nat] ->
  exists Q, Geometry.apply_rotation P a = Ok Q /\
    shape Q = [N; 2%nat] /\ wf Q /\
    rows Q = map (ccw_rotation a) (rows P).
Proof.
  destruct P as [sh d]; simpl; intros ->.
  destruct (apply_rotation_Nx2 N d a) as (Q & HQ & Hsh & Hwf & Hrows).
  exists Q. repeat split; try assumption.
  now apply (rows_rotated _ Q N a).
Qed.

Lemma sq_norm_rotation (u v a : R) :
  (u * cos a - v * sin a) * (u * cos a - v * sin a)
  + (u * sin a + v * cos a) * (u * sin a + v * cos a) = u * u + v * v.
Proof.
  pose proof (sin2_cos2 a) as H; unfold Rsqr in H.
  transitivity ((u * u + v * v) * (sin a * sin a + cos a * cos a)); [ring|].
  rewrite H. ring.
Qed.

Lemma ccw_rotation_plus (a b : R) (p : R * R) :
  ccw_rotation b (ccw_rotation a p) = ccw_rotation (a + b) p.
Proof.
  destruct p as [x y]. unfold ccw_rotation; simpl.
  rewrite cos_plus, sin_plus. f_equal; ring.
Qed.

(** X1: rotation keeps every point at its distance from the origin. *)
Theorem apply_rotation_preserves_norm (P : ndarray) (a : R) (N : nat) :
  shape P = [N; 2%nat] ->
  exists Q, Geometry.apply_rotation P a = Ok Q /\
    map sq_norm (rows Q) = map sq_norm (rows P).
Proof.
  intros HP.
  destruct (apply_rotation_rows P a N HP) as (Q & HQ & _ & _ & Hrows).
  exists Q. split; [assumption|].
  rewrite Hrows, map_map. apply map_ext.
  intros [x y]. unfold sq_norm, ccw_rotation; simpl.
  apply sq_norm_rotation.
Qed.

Lemma apply_rotation_preserves_norm_witness :
  exists Q,
    Geometry.apply_rotation (mk_ndarray [2; 2]%nat [3; 4; 0; 1]) 1 = Ok Q /\
    map sq_norm (rows Q) = map sq_norm (rows (mk_ndarray [2; 2]%nat [3; 4; 0; 1])).
Proof.
  apply (apply_rotation_preserves_norm
           (mk_ndarray [2; 2]%nat [3; 4; 0; 1]) 1 2).
  reflexivity.
Defined.

(** X2: over the reals, turning by [a] and then by [b] is turning by
    [a + b]. *)
Theorem apply_rotation_compose (P : ndarray) (a b : R) (N : nat) :
  shape P = [N; 2%nat] ->
  (Q <- Geometry.apply_rotation P a ;; Geometry.apply_rotation Q b)
  = Geometry.apply_rotation P (a + b).
Proof.
  intros HP.
  destruct (apply_rotation_rows P a N HP) as (Q & HQ & HQs & HQw & HQr).
  destruct (apply_rotation_rows Q b N HQs) as (Q2 & HQ2 & HQ2s & HQ2w & HQ2r).
  destruct (apply_rotation_rows P (a + b) N HP) as (Q3 & HQ3 & HQ3s & HQ3w & HQ3r).
  rewrite HQ; cbn [bind]. rewrite HQ2, HQ3. f_equal.
  apply (rows_ext Q2 Q3 N); try assumption.
  rewrite HQ2r, HQr, HQ3r, map_map.
  apply map_ext. intros p. apply ccw_rotation_plus.
Qed.

Lemma apply_rotation_compose_witness :
  (Q <- Geometry.apply_rotation (mk_ndarray [1; 2]%nat [1; 2]) 1 ;;
   Geometry.apply_rotation Q 2)
  = Geometry.apply_rotation (mk_ndarray [1; 2]%nat [1; 2]) (1 + 2).
Proof.
  apply (apply_rotation_compose (mk_ndarray [1; 2]%nat [1; 2]) 1 2 1).
  reflexivity.
Defined.

(** X3: over the reals, the angle is periodic: a full turn more changes
    nothing, for an input of any shape. *)
Theorem apply_rotation_periodic (P : ndarray) (a : R) :
  Geometry.apply_rotation P (a + 2 * PI) = Geometry.apply_rotation P a.
Proof.
  unfold Geometry.apply_rotation.
  now rewrite cos_plus, sin_plus, cos_2PI, sin_2PI,
    !Rmult_1_r, !Rmult_0_r, Rminus_0_r, Rplus_0_r.
Qed.

Lemma shape_last_last (P : ndarray) :
  shape P <> [] -> shape_last P = Ok (last (shape P) 0%nat).
Proof.
  unfold shape_last.
  destruct (shape P) as [|x l] using rev_ind; [congruence|]. intros _.
  now rewrite rev_app_distr, last_last.
Qed.

Lemma dot_not_FString (a b : ndarray) (parts : list fragment) :
  dot a b <> Raise (ValueError (FString parts)).
Proof.
  unfold dot.
  repeat match goal with
         | |- context [match ?x with _ => _ end] => destruct x
         end; discriminate.
Qed.

(** X4: [apply_rotation] raises its shape error, reporting the shape of
    the input, exactly when the input has at least one axis and the last
    one is not of length 2; a 0-d input raises IndexError instead, in
    [apply_transformations] too. *)
Theorem apply_rotation_shape_error (P : ndarray) (a : R) :
  (Geometry.apply_rotation P a = Raise (strings_shape_error P)
   <-> shape P <> [] /\ last (shape P) 0%nat <> 2%nat) /\
  (shape P = [] ->
   Geometry.apply_rotation P a = Raise IndexError /\
   forall d, Geometry.apply_transformations P d a = Raise IndexError).
Proof.
  split.
  - unfold Geometry.apply_rotation, strings_shape_error.
    destruct (list_eq_dec Nat.eq_dec (shape P) []) as [He|Hne].
    + unfold shape_last. rewrite He. simpl.
      split; [discriminate|tauto].
    + rewrite (shape_last_last P Hne); cbn [bind].
      destruct (last (shape P) 0 =? 2)%nat eqn:E; cbn [negb].
      * apply Nat.eqb_eq in E. split; [|tauto].
        simpl. destruct (dot _ (T P)) as [r|e] eqn:Hdot; simpl;
          [discriminate|].
        intros H. injection H as ->. now apply dot_not_FString in Hdot.
      * apply Nat.eqb_neq in E. tauto.
  - intros He. unfold Geometry.apply_transformations, Geometry.apply_rotation,
      shape_last. rewrite He. simpl. split; [reflexivity|intros d; reflexivity].
Qed.

Lemma apply_rotation_shape_error_witness :
  Geometry.apply_rotation (mk_ndarray [1; 3]%nat [1; 2; 3]) 0
  = Raise (strings_shape_error (mk_ndarray [1; 3]%nat [1; 2; 3])).
Proof.
  apply (proj1 (apply_rotation_shape_error
                  (mk_ndarray [1; 3]%nat [1; 2; 3]) 0)).
  split; [discriminate|]. simpl. lia.
Defined.

(** X5: a three-dimensional input of shape (A, B, 2) passes the shape
    check; numpy's dot then contracts the matrix with the middle axis, so
    the call raises numpy's alignment error unless B is 2, in which case it
    returns an array of shape (A, 2, 2). *)
Theorem apply_rotation_3d (P : ndarray) (a : R) (A B : nat) :
  shape P = [A; B; 2%nat] ->
  (B <> 2%nat ->
   Geometry.apply_rotation P a
   = Raise (ValueError (NpNotAligned [2; 2]%nat [2%nat; B; A]))) /\
  (B = 2%nat ->
   exists Q, Geometry.apply_rotation P a = Ok Q /\
     shape Q = [A; 2; 2]%nat /\ wf Q).
Proof.
  destruct P as [sh d]; simpl; intros ->.
  unfold Geometry.apply_rotation. simpl. unfold dot. cbn [shape T tabulate].
  cbn [rev app last removelast length].
  split.
  - intros HB. destruct (2 =? B)%nat eqn:E.
    + apply Nat.eqb_eq in E. congruence.
    + reflexivity.
  - intros ->. cbn [Nat.eqb bind].
    eexists; split; [reflexivity|].
    split; [reflexivity|apply wf_tabulate].
Qed.

Lemma apply_rotation_3d_witness :
  Geometry.apply_rotation (mk_ndarray [1; 3; 2]%nat [1; 2; 3; 4; 5; 6]) 0
  = Raise (ValueError (NpNotAligned [2; 2]%nat [2; 3; 1]%nat)).
Proof.
  apply (proj1 (apply_rotation_3d
                  (mk_ndarray [1; 3; 2]%nat [1; 2; 3; 4; 5; 6]) 0 1 3 eq_refl)).
  lia.
Defined.

(** ** Further properties of the displacement *)

Lemma apply_displacement_rows (P d : ndarray) (N : nat) :
  shape P = [N; 2%nat] -> shape d = [2%nat] ->
  exists Q, Geometry.apply_displacement P d = Ok Q /\
    shape Q = [N; 2%nat] /\ wf Q /\
    rows Q = map (displace d) (rows P).
Proof.
  destruct P as [shP dP], d as [shd dd]; simpl; intros -> ->.
  unfold Geometry.apply_displacement; simpl.
  destruct (add_2_Nx2 N dd dP) as (Q & HQ & Hsh & Hwf & Hget).
  exists Q. repeat split; try assumption.
  unfold rows. rewrite Hsh, map_map. simpl hd.
  apply map_ext_in. intros i Hi. apply in_seq in Hi.
  unfold displace; simpl fst; simpl snd.
  rewrite !Hget by lia. f_equal; ring.
Qed.

Lemma add_2_2 (d1 d2 : ndarray) :
  shape d1 = [2%nat] -> shape d2 = [2%nat] ->
  exists d, add d1 d2 = Ok d /\ shape d = [2%nat] /\
    get d [0%nat] = get d1 [0%nat] + get d2 [0%nat] /\
    get d [1%nat] = get d1 [1%nat] + get d2 [1%nat].
Proof.
  destruct d1 as [s1 l1], d2 as [s2 l2]; simpl; intros -> ->.
  unfold add, broadcast2; simpl.
  eexists; split; [reflexivity|]. split; [reflexivity|].
  split; reflexivity.
Qed.

(** X6: over the reals, two displacements in a row are one displacement by
    the sum of the two vectors. *)
Theorem apply_displacement_additive (P d1 d2 : ndarray) (N : nat) :
  shape P = [N; 2%nat] -> shape d1 = [2%nat] -> shape d2 = [2%nat] ->
  (Q <- Geometry.apply_displacement P d1 ;; Geometry.apply_displacement Q d2)
  = (d <- add d1 d2 ;; Geometry.apply_displacement P d).
Proof.
  intros HP H1 H2.
  destruct (apply_displacement_rows P d1 N HP H1) as (Q & HQ & HQs & HQw & HQr).
  destruct (apply_displacement_rows Q d2 N HQs H2)
    as (Q2 & HQ2 & HQ2s & HQ2w & HQ2r).
  destruct (add_2_2 d1 d2 H1 H2) as (d & Hd & Hds & Hd0 & Hd1).
  destruct (apply_displacement_rows P d N HP Hds)
    as (Q3 & HQ3 & HQ3s & HQ3w & HQ3r).
  rewrite HQ, Hd; cbn [bind]. rewrite HQ2, HQ3. f_equal.
  apply (rows_ext Q2 Q3 N); try assumption.
  rewrite HQ2r, HQr, HQ3r, map_map.
  apply map_ext. intros [x y]. unfold displace; simpl.
  rewrite Hd0, Hd1. f_equal; ring.
Qed.

Lemma apply_displacement_additive_witness :
  (Q <- Geometry.apply_displacement
          (mk_ndarray [1; 2]%nat [1; 2]) (mk_ndarray [2%nat] [10; 20]) ;;
   Geometry.apply_displacement Q (mk_ndarray [2%nat] [5; 6]))
  = (d <- add (mk_ndarray [2%nat] [10; 20]) (mk_ndarray [2%nat] [5; 6]) ;;
     Geometry.apply_displacement (mk_ndarray [1; 2]%nat [1; 2]) d).
Proof.
  apply (apply_displacement_additive
           (mk_ndarray [1; 2]%nat [1; 2]) (mk_ndarray [2%nat] [10; 20])
           (mk_ndarray [2%nat] [5; 6]) 1); reflexivity.
Defined.

Lemma rev_last_cons (sh : list nat) :
  sh <> [] -> rev sh = last sh 0%nat :: rev (removelast sh).
Proof.
  destruct sh as [|x l] using rev_ind; [congruence|]. intros _.
  now rewrite rev_app_distr, last_last, removelast_last.
Qed.

(** X7: [apply_displacement] does not check the points.  With a
    displacement of shape (2,) it succeeds exactly on a 0-d array and on
    arrays whose last axis has length 1 or 2 (numpy broadcasts them); on
    any other array numpy's broadcasting error is raised. *)
Theorem apply_displacement_points_unchecked (P d : ndarray) :
  shape d = [2%nat] ->
  (is_ok (Geometry.apply_displacement P d) = true
   <-> shape P = [] \/ last (shape P) 0%nat = 1%nat
       \/ last (shape P) 0%nat = 2%nat) /\
  (is_ok (Geometry.apply_displacement P d) = false ->
   Geometry.apply_displacement P d
   = Raise (ValueError (NpBroadcast [2%nat] (shape P)))).
Proof.
  intros Hd. unfold Geometry.apply_displacement.
  rewrite Hd. rewrite shape_eqb_refl. cbn [negb].
  unfold add, broadcast2, broadcast_shapes. rewrite Hd. cbn [rev app].
  destruct (list_eq_dec Nat.eq_dec (shape P) []) as [He|Hne].
  - rewrite He. simpl. split; [tauto|discriminate].
  - rewrite (rev_last_cons _ Hne). cbn [broadcast_rev].
    set (n := last (shape P) 0%nat).
    destruct (2 =? n)%nat eqn:E2.
    + apply Nat.eqb_eq in E2. cbn [option_map is_ok rev].
      simpl.
      split; [intuition lia|discriminate].
    + apply Nat.eqb_neq in E2. cbn [Nat.eqb].
      destruct (n =? 1)%nat eqn:E1.
      * apply Nat.eqb_eq in E1. simpl.
        split; [intuition lia|discriminate].
      * apply Nat.eqb_neq in E1. simpl.
        split; [|reflexivity].
        split; [discriminate|]. intros [H|[H|H]]; [congruence|lia|lia].
Qed.

Lemma apply_displacement_points_unchecked_witness :
  is_ok (Geometry.apply_displacement
           (mk_ndarray [2; 1]%nat [1; 2]) (mk_ndarray [2%nat] [10; 20])) = true.
Proof.
  apply (proj1 (apply_displacement_points_unchecked
                  (mk_ndarray [2; 1]%nat [1; 2])
                  (mk_ndarray [2%nat] [10; 20]) eq_refl)).
  right; left; reflexivity.
Defined.

(** ** Further properties of the composed transformation *)

Lemma apply_transformations_rows (P d : ndarray) (a : R) (N : nat) :
  shape P = [N; 2%nat] -> shape d = [2%nat] ->
  exists Q, Geometry.apply_transformations P d a = Ok Q /\
    shape Q = [N; 2%nat] /\ wf Q /\
    rows Q = map (fun p => displace d (ccw_rotation a p)) (rows P).
Proof.
  intros HP Hd.
  destruct (apply_rotation_rows P a N HP) as (Q & HQ & HQs & HQw & HQr).
  destruct (apply_displacement_rows Q d N HQs Hd)
    as (Q2 & HQ2 & HQ2s & HQ2w & HQ2r).
  exists Q2. repeat split; try assumption.
  - unfold Geometry.apply_transformations, shape_last.
    rewrite HP; cbn [rev app bind Nat.eqb negb].
    rewrite HQ; cbn [bind]. now rewrite HQ2.
  - now rewrite HQ2r, HQr, map_map.
Qed.

(** X8: on points of shape (N, 2) and a displacement of shape (2,),
    [apply_transformations] succeeds, keeps the shape, and row i of the
    result is row i of the input turned about the origin and then moved by
    the displacement. *)
Theorem apply_transformations_rotates_then_displaces
  (P d : ndarray) (a : R) (N : nat) :
  shape P = [N; 2%nat] -> shape d = [2%nat] ->
  exists Q, Geometry.apply_transformations P d a = Ok Q /\
    shape Q = [N; 2%nat] /\ wf Q /\
    rows Q = map (fun p => displace d (ccw_rotation a p)) (rows P).
Proof. apply apply_transformations_rows. Qed.

Lemma apply_transformations_rotates_then_displaces_witness :
  exists Q,
    Geometry.apply_transformations
      (mk_ndarray [1; 2]%nat [1; 0]) (mk_ndarray [2%nat] [10; 20]) PI = Ok Q /\
    shape Q = [1; 2]%nat /\ wf Q /\
    rows Q = map (fun p => displace (mk_ndarray [2%nat] [10; 20])
                             (ccw_rotation PI p))
               (rows (mk_ndarray [1; 2]%nat [1; 0])).
Proof.
  apply (apply_transformations_rotates_then_displaces
           (mk_ndarray [1; 2]%nat [1; 0]) (mk_ndarray [2%nat] [10; 20]) PI 1);
    reflexivity.
Defined.

(** X9: [apply_transformations] checks the points first: with a last axis
    not of length 2 it raises the shape error of the points whatever the
    displacement is; with points of shape (N, 2) and a displacement not of
    shape (2,) it raises the displacement's shape error. *)
Theorem apply_transformations_error_order (P d : ndarray) (a : R) :
  (shape P <> [] -> last (shape P) 0%nat <> 2%nat ->
   Geometry.apply_transformations P d a = Raise (strings_shape_error P)) /\
  (forall N, shape P = [N; 2%nat] -> shape d <> [2%nat] ->
   Geometry.apply_transformations P d a = Raise (displacement_shape_error d)).
Proof.
  split.
  - intros Hne Hlast. unfold Geometry.apply_transformations.
    rewrite (shape_last_last P Hne); cbn [bind].
    apply Nat.eqb_neq in Hlast. now rewrite Hlast.
  - intros N HP Hd.
    destruct (apply_rotation_rows P a N HP) as (Q & HQ & _).
    unfold Geometry.apply_transformations, shape_last.
    rewrite HP; cbn [rev app bind Nat.eqb negb].
    rewrite HQ; cbn [bind].
    unfold Geometry.apply_displacement.
    destruct (shape_eqb (shape d) [2%nat]) eqn:E; [|reflexivity].
    apply shape_eqb_eq in E. congruence.
Qed.

Lemma apply_transformations_error_order_witness :
  Geometry.apply_transformations
    (mk_ndarray [1; 3]%nat [1; 2; 3]) (mk_ndarray [3%nat] [1; 2; 3]) 0
  = Raise (strings_shape_error (mk_ndarray [1; 3]%nat [1; 2; 3])) /\
  Geometry.apply_transformations
    (mk_ndarray [1; 2]%nat [1; 2]) (mk_ndarray [3%nat] [1; 2; 3]) 0
  = Raise (displacement_shape_error (mk_ndarray [3%nat] [1; 2; 3])).
Proof.
  split.
  - apply (proj1 (apply_transformations_error_order
                    (mk_ndarray [1; 3]%nat [1; 2; 3])
                    (mk_ndarray [3%nat] [1; 2; 3]) 0)).
    + discriminate.
    + simpl. lia.
  - apply (proj2 (apply_transformations_error_order
                    (mk_ndarray [1; 2]%nat [1; 2])
                    (mk_ndarray [3%nat] [1; 2; 3]) 0) 1%nat).
    + reflexivity.
    + simpl. intros H. discriminate H.
Defined.

Lemma sq_dist_transformed (d : ndarray) (a : R) (p q : R * R) :
  sq_dist (displace d (ccw_rotation a p)) (displace d (ccw_rotation a q))
  = sq_dist p q.
Proof.
  destruct p as [x1 y1], q as [x2 y2].
  unfold sq_dist, sq_norm, displace, ccw_rotation; simpl.
  rewrite <- (sq_norm_rotation (x1 - x2) (y1 - y2) a). ring.
Qed.

Lemma nth_map_in_range {A B : Type} (f : A -> B) (l : list A) (i : nat)
  (da : A) (db : B) :
  (i < length l)%nat -> nth i (map f l) db = f (nth i l da).
Proof.
  intros Hi. rewrite (nth_indep _ db (f da)) by now rewrite length_map.
  apply map_nth.
Qed.

(** X10: over the reals, the transformation is a rigid motion: the distance
    between any two points of the set is the same before and after. *)
Theorem apply_transformations_preserves_distances
  (P d : ndarray) (a : R) (N i j : nat) :
  shape P = [N; 2%nat] -> shape d = [2%nat] ->
  (i < N)%nat -> (j < N)%nat ->
  exists Q, Geometry.apply_transformations P d a = Ok Q /\
    sq_dist (nth i (rows Q) (0, 0)) (nth j (rows Q) (0, 0))
    = sq_dist (nth i (rows P) (0, 0)) (nth j (rows P) (0, 0)).
Proof.
  intros HP Hd Hi Hj.
  destruct (apply_transformations_rows P d a N HP Hd)
    as (Q & HQ & _ & _ & Hrows).
  exists Q. split; [assumption|].
  assert (Hlen : length (rows P) = N) by (rewrite rows_length, HP; reflexivity).
  rewrite Hrows.
  rewrite !(nth_map_in_range _ (rows P) _ (0, 0) (0, 0)) by lia.
  apply sq_dist_transformed.
Qed.

Lemma apply_transformations_preserves_distances_witness :
  exists Q,
    Geometry.apply_transformations
      (mk_ndarray [2; 2]%nat [1; 0; 0; 3]) (mk_ndarray [2%nat] [10; 20]) 1
    = Ok Q /\
    sq_dist (nth 0 (rows Q) (0, 0)) (nth 1 (rows Q) (0, 0))
    = sq_dist (nth 0 (rows (mk_ndarray [2; 2]%nat [1; 0; 0; 3])) (0, 0))
              (nth 1 (rows (mk_ndarray [2; 2]%nat [1; 0; 0; 3])) (0, 0)).
Proof.
  apply (apply_transformations_preserves_distances
           (mk_ndarray [2; 2]%nat [1; 0; 0; 3]) (mk_ndarray [2%nat] [10; 20])
           1 2 0 1); try reflexivity; lia.
Defined.

Lemma get_negative (d : ndarray) (idx : list nat) :
  get (negative d) idx = - get d idx.
Proof.
  unfold get, negative, ufunc; simpl.
  rewrite <- Ropp_0 at 1. apply map_nth.
Qed.

Lemma undo_point (d : ndarray) (a : R) (p : R * R) :
  ccw_rotation (- a) (displace (negative d) (displace d (ccw_rotation a p))) = p.
Proof.
  destruct p as [x y]. unfold displace; simpl fst; simpl snd.
  rewrite !get_negative.
  replace (x * cos a - y * sin a + get d [0%nat] + - get d [0%nat])
    with (fst (ccw_rotation a (x, y))) by (simpl; ring).
  replace (x * sin a + y * cos a + get d [1%nat] + - get d [1%nat])
    with (snd (ccw_rotation a (x, y))) by (simpl; ring).
  rewrite <- surjective_pairing, ccw_rotation_plus, Rplus_opp_r.
  unfold ccw_rotation; simpl. rewrite cos_0, sin_0. f_equal; ring.
Qed.

(** X11: over the reals, a transformation is undone by displacing with the
    negated vector and then turning by the negated angle. *)
Theorem apply_transformations_undo (P d : ndarray) (a : R) (N : nat) :
  shape P = [N; 2%nat] -> wf P -> shape d = [2%nat] ->
  (Q <- Geometry.apply_transformations P d a ;;
   Q' <- Geometry.apply_displacement Q (negative d) ;;
   Geometry.apply_rotation Q' (- a)) = Ok P.
Proof.
  intros HP Hwf Hd.
  destruct (apply_transformations_rows P d a N HP Hd)
    as (Q & HQ & HQs & HQw & HQr).
  assert (Hnd : shape (negative d) = [2%nat]) by exact Hd.
  destruct (apply_displacement_rows Q (negative d) N HQs Hnd)
    as (Q2 & HQ2 & HQ2s & HQ2w & HQ2r).
  destruct (apply_rotation_rows Q2 (- a) N HQ2s)
    as (Q3 & HQ3 & HQ3s & HQ3w & HQ3r).
  rewrite HQ; cbn [bind]. rewrite HQ2; cbn [bind]. rewrite HQ3. f_equal.
  apply (rows_ext Q3 P N); try assumption.
  rewrite HQ3r, HQ2r, HQr, !map_map.
  rewrite <- (map_id (rows P)) at 2.
  apply map_ext. intros p. apply undo_point.
Qed.

Lemma apply_transformations_undo_witness :
  (Q <- Geometry.apply_transformations
          (mk_ndarray [1; 2]%nat [1; 2]) (mk_ndarray [2%nat] [10; 20]) 1 ;;
   Q' <- Geometry.apply_displacement Q (negative (mk_ndarray [2%nat] [10; 20])) ;;
   Geometry.apply_rotation Q' (- 1)) = Ok (mk_ndarray [1; 2]%nat [1; 2]).
Proof.
  apply (apply_transformations_undo
           (mk_ndarray [1; 2]%nat [1; 2]) (mk_ndarray [2%nat] [10; 20]) 1 1);
    reflexivity.
Defined.

(** ** Further properties of the symmetric shapes *)

Lemma create_symmetry_rows (N Np : Z) (sa : R) :
  (Np < N)%Z -> N <> 0%Z ->
  exists Q, Geometry.create_symmetry N sa Np = Ok Q /\
    shape Q = [vertex_count N Np; 2%nat] /\ wf Q /\
    rows Q = map (ngon_vertex N sa) (seq 0 (vertex_count N Np)).
Proof.
  intros Hlt HN.
  destruct (create_symmetry_vertices N Np sa Hlt HN) as (Q & HQ & Hs & Hw & Hv).
  exists Q. repeat split; try assumption.
  now apply rows_vertices.
Qed.

(** X12: the three outcomes of [create_symmetry]: the guard's ValueError
    exactly when [N_partial >= N_symmetry]; ZeroDivisionError exactly when
    [N_symmetry = 0] and [N_partial < 0]; otherwise an array of shape
    (count, 2), where count is [N_symmetry] for [N_partial = 0], and
    [N_partial] (or 0 if that is negative) otherwise. *)
Theorem create_symmetry_outcomes (N Np : Z) (sa : R) :
  (Geometry.create_symmetry N sa Np = Raise (partial_error N Np)
   <-> (Np >= N)%Z) /\
  (Geometry.create_symmetry N sa Np = Raise ZeroDivisionError
   <-> N = 0%Z /\ (Np < 0)%Z) /\
  ((exists Q, Geometry.create_symmetry N sa Np = Ok Q /\
      shape Q = [vertex_count N Np; 2%nat] /\ wf Q)
   <-> (Np < N)%Z /\ N <> 0%Z).
Proof.
  destruct (Z_lt_ge_dec Np N) as [Hlt|Hge].
  - destruct (Z.eq_dec N 0) as [H0|Hne].
    + assert (H : Geometry.create_symmetry N sa Np = Raise ZeroDivisionError).
      { unfold Geometry.create_symmetry.
        replace (Np >=? N)%Z with false
          by (symmetry; rewrite Z.geb_leb; now apply Z.leb_gt).
        subst N. reflexivity. }
      rewrite H. split; [|split].
      * split; [discriminate|lia].
      * split; [intros _; lia|reflexivity].
      * split; [intros (Q & HQ & _); discriminate|tauto].
    + destruct (create_symmetry_rows N Np sa Hlt Hne) as (Q & HQ & Hs & Hw & _).
      split; [|split].
      * rewrite HQ. split; [discriminate|lia].
      * rewrite HQ. split; [discriminate|tauto].
      * split; [intros _; tauto|intros _]. now exists Q.
  - assert (H : Geometry.create_symmetry N sa Np = Raise (partial_error N Np)).
    { unfold Geometry.create_symmetry.
      replace (Np >=? N)%Z with true; [reflexivity|].
      symmetry. rewrite Z.geb_leb. apply Z.leb_le. lia. }
    rewrite H. split; [|split].
    + tauto.
    + split; [discriminate|lia].
    + split; [intros (Q & HQ & _); discriminate|lia].
Qed.

Lemma create_symmetry_outcomes_witness :
  Geometry.create_symmetry 0 0 (-1) = Raise ZeroDivisionError.
Proof.
  apply (proj1 (proj2 (create_symmetry_outcomes 0 (-1) 0))). lia.
Defined.

(** X13: over the reals, every vertex [create_symmetry] returns lies on the
    unit circle. *)
Theorem create_symmetry_on_unit_circle (N Np : Z) (sa : R) :
  (Np < N)%Z -> N <> 0%Z ->
  exists Q, Geometry.create_symmetry N sa Np = Ok Q /\
    Forall (fun p => sq_norm p = 1) (rows Q).
Proof.
  intros Hlt HN.
  destruct (create_symmetry_rows N Np sa Hlt HN) as (Q & HQ & _ & _ & Hrows).
  exists Q. split; [assumption|].
  rewrite Hrows. apply Forall_map, Forall_forall. intros k _.
  unfold sq_norm, ngon_vertex; simpl.
  pose proof (sin2_cos2 (sa + INR k * (2 * PI / IZR N))) as H.
  unfold Rsqr in H. rewrite <- H. ring.
Qed.

Lemma create_symmetry_on_unit_circle_witness :
  exists Q, Geometry.create_symmetry 6 1 0 = Ok Q /\
    Forall (fun p => sq_norm p = 1) (rows Q).
Proof.
  apply (create_symmetry_on_unit_circle 6 0 1); lia.
Defined.

Lemma ngon_vertex_start (N : Z) (sa : R) (k : nat) :
  ccw_rotation sa (ngon_vertex N 0 k) = ngon_vertex N sa k.
Proof.
  unfold ccw_rotation, ngon_vertex; simpl.
  rewrite Rplus_0_l, (Rplus_comm sa), cos_plus, sin_plus. f_equal; ring.
Qed.

(** X14: over the reals, the starting angle is a rotation of the shape: the
    result for [starting_angle] is the result for angle 0 turned by
    [starting_angle] with [apply_rotation]. *)
Theorem create_symmetry_start_is_rotation (N Np : Z) (sa : R) :
  (Np < N)%Z -> N <> 0%Z ->
  Geometry.create_symmetry N sa Np
  = (F <- Geometry.create_symmetry N 0 Np ;; Geometry.apply_rotation F sa).
Proof.
  intros Hlt HN.
  destruct (create_symmetry_rows N Np sa Hlt HN) as (Q & HQ & HQs & HQw & HQr).
  destruct (create_symmetry_rows N Np 0 Hlt HN) as (F & HF & HFs & HFw & HFr).
  destruct (apply_rotation_rows F sa _ HFs) as (Q2 & HQ2 & HQ2s & HQ2w & HQ2r).
  rewrite HQ, HF; cbn [bind]. rewrite HQ2. f_equal.
  apply (rows_ext Q Q2 (vertex_count N Np)); try assumption.
  rewrite HQr, HQ2r, HFr, map_map.
  apply map_ext. intros k. symmetry. apply ngon_vertex_start.
Qed.

Lemma create_symmetry_start_is_rotation_witness :
  Geometry.create_symmetry 5 1 2
  = (F <- Geometry.create_symmetry 5 0 2 ;; Geometry.apply_rotation F 1).
Proof.
  apply (create_symmetry_start_is_rotation 5 2 1); lia.
Defined.

Lemma ngon_vertex_step (N : Z) (sa : R) (k : nat) :
  ccw_rotation (2 * PI / IZR N) (ngon_vertex N sa k) = ngon_vertex N sa (S k).
Proof.
  unfold ccw_rotation, ngon_vertex; simpl fst; simpl snd.
  rewrite S_INR.
  replace (sa + (INR k + 1) * (2 * PI / IZR N))
    with ((sa + INR k * (2 * PI / IZR N)) + 2 * PI / IZR N) by ring.
  rewrite (cos_plus (sa + INR k * (2 * PI / IZR N))),
    (sin_plus (sa + INR k * (2 * PI / IZR N))).
  f_equal; ring.
Qed.

Lemma ngon_vertex_wraps (N : Z) (sa : R) :
  (1 <= N)%Z -> ngon_vertex N sa (Z.to_nat N) = ngon_vertex N sa 0.
Proof.
  intros HN. unfold ngon_vertex.
  rewrite INR_IZR_INZ, Z2Nat.id by lia.
  assert (HR : IZR N <> 0) by (apply not_0_IZR; lia).
  replace (sa + IZR N * (2 * PI / IZR N)) with (sa + 2 * PI)
    by (field; assumption).
  replace (sa + INR 0 * (2 * PI / IZR N)) with sa by (simpl; ring).
  rewrite cos_plus, sin_plus, cos_2PI, sin_2PI. f_equal; ring.
Qed.

(** X15: over the reals, the full shape is symmetric under a turn by one
    step, 2 pi / N_symmetry: the turned shape has the same vertices, each
    moved one place up the list and the first one to the end. *)
Theorem create_symmetry_symmetric (N : Z) (sa : R) :
  (1 <= N)%Z ->
  exists F Q,
    Geometry.create_symmetry N sa 0 = Ok F /\
    Geometry.apply_rotation F (2 * PI / IZR N) = Ok Q /\
    rows Q = skipn 1 (rows F) ++ firstn 1 (rows F).
Proof.
  intros HN.
  destruct (create_symmetry_rows N 0 sa) as (F & HF & HFs & HFw & HFr);
    [lia|lia|].
  destruct (apply_rotation_rows F (2 * PI / IZR N) _ HFs)
    as (Q & HQ & HQs & HQw & HQr).
  exists F, Q. split; [assumption|]. split; [assumption|].
  rewrite HQr, HFr, map_map. rewrite vertex_count_full.
  destruct (Z.to_nat N) as [|m] eqn:Hm; [lia|].
  rewrite (map_ext _ (fun k => ngon_vertex N sa (S k)))
    by (intros k; apply ngon_vertex_step).
  rewrite <- (map_map S (ngon_vertex N sa)), seq_shift.
  rewrite seq_S, map_app. cbn [seq map skipn firstn Nat.add].
  f_equal. rewrite <- Hm. f_equal. now apply ngon_vertex_wraps.
Qed.

Lemma create_symmetry_symmetric_witness :
  exists F Q,
    Geometry.create_symmetry 4 0 0 = Ok F /\
    Geometry.apply_rotation F (2 * PI / IZR 4) = Ok Q /\
    rows Q = skipn 1 (rows F) ++ firstn 1 (rows F).
Proof.
  apply (create_symmetry_symmetric 4 0). lia.
Defined.
